(** * The A* search node of the trajectory planner (Astar/Node.cpp)

    A shallow embedding of [Node] and its member functions, and the
    properties of the planner's specification that concern them.

    Conventions of the embedding.
    - A C++ [double] is a real number of [R]: rounding, overflow, infinities
      and NaN are outside the model.  [pow(v,2)] is [v ^ 2], [M_PI] is [PI].
    - A C++ [int] is an integer of [Z]; the one narrowing conversion of the
      source (from [size_t]) is written out as [to_int].
    - A [Node*] is an address of type [ptr]; [0] is the null pointer.
    - [std::list<Node>] is [list Node]; [push_back] appends a copy at the end.
    - A member function is a function of the receiver ([self], the object
      [*this]) that returns the receiver after the call next to its result.
    - A member that a constructor does not assign keeps the indeterminate
      content of the object's storage: the constructor takes that storage
      ([raw]) as an argument.
    - Two steps of the source are undefined in C++: reading an array past
      its end, and reaching the closing brace of a [bool] function without a
      [return].  A call that takes such a step has no result and leaves no
      state behind: [FellOffEnd] for the function that misses its [return],
      [None] for [GenerateChildren]. *)

From Stdlib Require Import Reals.Reals ZArith.ZArith Lists.List Bool.Bool.
From Stdlib Require Import micromega.Lia micromega.Lra.
Import ListNotations.

Local Open Scope Z_scope.
Local Open Scope R_scope.

(** ** Data *)

Definition ptr : Type := Z.

Definition nullptr : ptr := 0%Z.

(** The data members that Node.cpp reads or writes (Node.h declares them). *)
#[warnings="-register-all"]
Inductive Node : Type := mkNode {
  parent : ptr;
  index : Z;
  x : R;
  y : R;
  z : R;
  vx : R;
  vy : R;
  vz : R;
  psi : R;
  vs : R;
  speed : R;
  g : R;
  h : R;
  neighborhood : R;
  children : list Node
}.

(** Assignments to one member. *)
Definition set_parent (v : ptr) (n : Node) : Node :=
  mkNode v (index n) (x n) (y n) (z n) (vx n) (vy n) (vz n) (psi n) (vs n)
         (speed n) (g n) (h n) (neighborhood n) (children n).

Definition set_index (v : Z) (n : Node) : Node :=
  mkNode (parent n) v (x n) (y n) (z n) (vx n) (vy n) (vz n) (psi n) (vs n)
         (speed n) (g n) (h n) (neighborhood n) (children n).

Definition set_x (v : R) (n : Node) : Node :=
  mkNode (parent n) (index n) v (y n) (z n) (vx n) (vy n) (vz n) (psi n) (vs n)
         (speed n) (g n) (h n) (neighborhood n) (children n).

Definition set_y (v : R) (n : Node) : Node :=
  mkNode (parent n) (index n) (x n) v (z n) (vx n) (vy n) (vz n) (psi n) (vs n)
         (speed n) (g n) (h n) (neighborhood n) (children n).

Definition set_z (v : R) (n : Node) : Node :=
  mkNode (parent n) (index n) (x n) (y n) v (vx n) (vy n) (vz n) (psi n) (vs n)
         (speed n) (g n) (h n) (neighborhood n) (children n).

Definition set_vx (v : R) (n : Node) : Node :=
  mkNode (parent n) (index n) (x n) (y n) (z n) v (vy n) (vz n) (psi n) (vs n)
         (speed n) (g n) (h n) (neighborhood n) (children n).

Definition set_vy (v : R) (n : Node) : Node :=
  mkNode (parent n) (index n) (x n) (y n) (z n) (vx n) v (vz n) (psi n) (vs n)
         (speed n) (g n) (h n) (neighborhood n) (children n).

Definition set_vz (v : R) (n : Node) : Node :=
  mkNode (parent n) (index n) (x n) (y n) (z n) (vx n) (vy n) v (psi n) (vs n)
         (speed n) (g n) (h n) (neighborhood n) (children n).

Definition set_psi (v : R) (n : Node) : Node :=
  mkNode (parent n) (index n) (x n) (y n) (z n) (vx n) (vy n) (vz n) v (vs n)
         (speed n) (g n) (h n) (neighborhood n) (children n).

Definition set_vs (v : R) (n : Node) : Node :=
  mkNode (parent n) (index n) (x n) (y n) (z n) (vx n) (vy n) (vz n) (psi n) v
         (speed n) (g n) (h n) (neighborhood n) (children n).

Definition set_speed (v : R) (n : Node) : Node :=
  mkNode (parent n) (index n) (x n) (y n) (z n) (vx n) (vy n) (vz n) (psi n) (vs n)
         v (g n) (h n) (neighborhood n) (children n).

Definition set_g (v : R) (n : Node) : Node :=
  mkNode (parent n) (index n) (x n) (y n) (z n) (vx n) (vy n) (vz n) (psi n) (vs n)
         (speed n) v (h n) (neighborhood n) (children n).

Definition set_h (v : R) (n : Node) : Node :=
  mkNode (parent n) (index n) (x n) (y n) (z n) (vx n) (vy n) (vz n) (psi n) (vs n)
         (speed n) (g n) v (neighborhood n) (children n).

Definition set_neighborhood (v : R) (n : Node) : Node :=
  mkNode (parent n) (index n) (x n) (y n) (z n) (vx n) (vy n) (vz n) (psi n) (vs n)
         (speed n) (g n) (h n) v (children n).

Definition set_children (v : list Node) (n : Node) : Node :=
  mkNode (parent n) (index n) (x n) (y n) (z n) (vx n) (vy n) (vz n) (psi n) (vs n)
         (speed n) (g n) (h n) (neighborhood n) v.

(** How a call of a value-returning member function ends: at a [return]
    statement, with what the call hands back, or at the closing brace without
    one, which is undefined. *)
Inductive result (A : Type) : Type :=
| Returned (v : A)
| FellOffEnd.

Arguments Returned {A} v.
Arguments FellOffEnd {A}.

(** Conversion of a [size_t] to [int] (two's complement, 32 bits). *)
Definition to_int (n : Z) : Z := ((n + 2 ^ 31) mod 2 ^ 32 - 2 ^ 31)%Z.

(** ** Member functions *)

(** [Node::Node()]: the body is empty, so every scalar member keeps the
    content of the storage; the list member is default-constructed. *)
Definition Node_default (raw : Node) : Node := set_children [] raw.

(** [Node::Node(Node* _parent, int index, double xl, ...)].  The parameter
    [index] hides the member of that name and the body never writes
    [this->index].  The list member is default-constructed before the body
    runs. *)
Definition Node_ctor (raw : Node) (_parent : ptr) (index' : Z)
    (xl yl zl psil vsl speedl : R) : Node :=
  let self := set_children [] raw in
  let self := set_parent _parent self in
  let self := set_x xl self in
  let self := set_y yl self in
  let self := set_z zl self in
  let self := set_vx 0 self in
  let self := set_vy 0 self in
  let self := set_vz 0 self in
  let self := set_psi psil self in
  let self := set_vs vsl self in
  let self := set_speed speedl self in
  let self := set_g 0 self in
  let self := set_h 0 self in
  let self := set_neighborhood 5 self in
  self.

(** [double Node::NodeDist(Node B)]. *)
Definition NodeDist (self B : Node) : R :=
  sqrt ((x self - x B) ^ 2 + (y self - y B) ^ 2).

(** [bool Node::GoalCheck(Node goal)]. *)
Definition GoalCheck (self goal : Node) : bool :=
  if Rlt_dec (NodeDist self goal) (neighborhood self) then true else false.

(** The loop of [AddChild] over [children]: [true] when it reaches the
    [return false], that is when some element has the index of [child]. *)
Fixpoint index_found (it : list Node) (child : Node) : bool :=
  match it with
  | [] => false
  | c :: rest => if (index c =? index child)%Z then true else index_found rest child
  end.

(** [bool Node::AddChild(Node child)]: the receiver after the call and the
    value returned.  After [children.push_back(child)] the body ends: that
    path has no [return] statement, so the call is undefined. *)
Definition AddChild (self child : Node) : result (Node * bool) :=
  if index_found (children self) child then Returned (self, false)
  else
    let self := set_children (children self ++ [child]) self in
    FellOffEnd.

(** [bool Node::operator<(Node &B)]. *)
Definition Node_lt (self B : Node) : bool :=
  let val1 := g self + h self in
  let val2 := g B + h B in
  if Rlt_dec val1 val2 then true else false.

(** [bool Node::operator!=(Node &B)]. *)
Definition Node_neq (self B : Node) : bool :=
  if negb (index self =? index B)%Z then true else false.

(** [for (int i = 0; i < len; ++i) body]: the body runs for
    [i = 0, ..., len - 1], not at all when [len <= 0]; [None] is undefined
    behaviour inside the body. *)
Fixpoint for_loop {St : Type} (n : nat) (i : Z) (body : Z -> St -> option St) (s : St)
  : option St :=
  match n with
  | O => Some s
  | S n' =>
      match body i s with
      | Some s' => for_loop n' (i + 1)%Z body s'
      | None => None
      end
  end.

Definition for_int {St : Type} (len : Z) (body : Z -> St -> option St) (s : St)
  : option St :=
  for_loop (Z.to_nat len) 0%Z body s.

(** [a[i]] for an array [a] given by a pointer to its first element: reading
    past the end is undefined. *)
Definition read (a : list R) (i : Z) : option R :=
  if (i <? 0)%Z then None else nth_error a (Z.to_nat i).

(** Lines 52 to 60 of [GenerateChildren]: the local [_child] that one
    iteration constructs, from the heading offset [dpsi] and the vertical
    speed offset [dvs] it has read.  [this] is the receiver's address, [raw]
    the storage of the local and [nodeList] the list behind the pointer. *)
Definition GenerateChildren_child (this : ptr) (raw : Node) (self : Node)
    (dpsi dvs dt : R) (nodeList : list Node) : Node :=
  let xnew := x self + speed self * sin (dpsi * PI / 180 + psi self * PI / 180) * dt in
  let ynew := y self + speed self * cos (dpsi * PI / 180 + psi self * PI / 180) * dt in
  let znew := z self + vs self * dt in
  let totalNodes := to_int (Z.of_nat (length nodeList)) in
  Node_ctor raw this totalNodes xnew ynew znew (psi self + dpsi) (vs self) 2.

(** The body of the inner loop of [GenerateChildren].  The state is the
    receiver and the list behind [nodeList].  When [_child.AddChild(_child)]
    ends without a [return] the iteration is undefined. *)
Definition GenerateChildren_body (this : ptr) (raw : Node)
    (heading vspeed : list R) (dt : R) (i j : Z) (st : Node * list Node)
  : option (Node * list Node) :=
  let '(self, nodeList) := st in
  match read heading i with
  | None => None
  | Some dpsi =>
      match read vspeed j with
      | None => None
      | Some dvs =>
          let _child := GenerateChildren_child this raw self dpsi dvs dt nodeList in
          match AddChild _child _child with
          | FellOffEnd => None
          | Returned (_child, _) => Some (self, nodeList ++ [_child])
          end
      end
  end.

(** [void Node::GenerateChildren(int lenH, int lenV, double* heading,
    double* vspeed, double dt, std::list<Node>* nodeList)].  [uninit i j] is
    the storage that the local [_child] occupies in iteration [(i, j)]. *)
Definition GenerateChildren (this : ptr) (uninit : Z -> Z -> Node) (self : Node)
    (lenH lenV : Z) (heading vspeed : list R) (dt : R) (nodeList : list Node)
  : option (Node * list Node) :=
  for_int lenH
    (fun i => for_int lenV
       (fun j => GenerateChildren_body this (uninit i j) heading vspeed dt i j))
    (self, nodeList).

(** ** Definitions used by the statements *)

(** Degrees to radians, as the specification writes the motion model. *)
Definition radians (deg : R) : R := deg * PI / 180.

(** The planar Euclidean distance between the points [(ax, ay)] and
    [(bx, by)]. *)
Definition planar_distance (ax ay bx by' : R) : R :=
  sqrt ((ax - bx) * (ax - bx) + (ay - by') * (ay - by')).

(** ** Concrete values for the runs *)

(** Storage whose [index] word holds 7. *)
Definition stale : Node := mkNode nullptr 7 0 0 0 0 0 0 0 0 0 0 0 0 [].

(** A node at the origin, heading north at 2 m/s, level flight, constructed
    with index argument 0. *)
Definition start : Node := Node_ctor stale nullptr 0 0 0 0 0 0 2.

(** The address of [start] in the runs below. *)
Definition start_addr : ptr := 4096%Z.

(** ** Loops *)

(** A counting loop whose body does nothing does nothing. *)
Lemma for_loop_skips {St : Type} (body : Z -> St -> option St) (n : nat) :
  forall (i0 : Z) (s : St),
    (forall i s', body i s' = Some s') ->
    for_loop n i0 body s = Some s.
Proof.
  induction n as [|n IH]; intros i0 s Hbody; simpl; [reflexivity|].
  rewrite Hbody. now apply IH.
Qed.

(** A counting loop has no result once some iteration has none, whatever the
    state it is reached in. *)
Lemma for_loop_fails {St : Type} (body : Z -> St -> option St) (n : nat) :
  forall (i0 k : Z) (s : St),
    (i0 <= k < i0 + Z.of_nat n)%Z ->
    (forall s', body k s' = None) ->
    for_loop n i0 body s = None.
Proof.
  induction n as [|n IH]; intros i0 k s Hk Hnone; [lia|].
  simpl. destruct (body i0 s) as [s'|] eqn:E; [|reflexivity].
  destruct (Z.eq_dec k i0) as [-> | Hne].
  - rewrite Hnone in E. discriminate.
  - apply (IH (i0 + 1)%Z k); [lia | exact Hnone].
Qed.

(** ** The constructor and [AddChild] *)

(** The constructor in one piece: every member but [index] is assigned, and
    [index] is the one of the storage, whatever the argument of that name. *)
Lemma Node_ctor_eq (raw : Node) (p : ptr) (i : Z) (xl yl zl psil vsl speedl : R) :
  Node_ctor raw p i xl yl zl psil vsl speedl =
  mkNode p (index raw) xl yl zl 0 0 0 psil vsl speedl 0 0 5 [].
Proof. reflexivity. Qed.

Lemma index_found_true (child : Node) : forall it : list Node,
  index_found it child = true <-> exists c, In c it /\ index c = index child.
Proof.
  induction it as [|c it IH]; simpl.
  - split; [discriminate | intros (c & [] & _)].
  - destruct (Z.eqb_spec (index c) (index child)) as [E | E].
    + split; [intros _; exists c; auto | reflexivity].
    + rewrite IH. split.
      * intros (c' & Hin & Hc'). exists c'. auto.
      * intros (c' & [-> | Hin] & Hc'); [contradiction | exists c'; auto].
Qed.

(** The path of [AddChild] that finds the index: [return false], the receiver
    untouched. *)
Lemma AddChild_found (self child : Node) :
  index_found (children self) child = true ->
  AddChild self child = Returned (self, false).
Proof. intro Hf. unfold AddChild. now rewrite Hf. Qed.

(** The path of [AddChild] that does not find the index ends without a
    [return]. *)
Lemma AddChild_fresh (self child : Node) :
  index_found (children self) child = false ->
  AddChild self child = FellOffEnd.
Proof. intro Hf. unfold AddChild. now rewrite Hf. Qed.

(** ** One call of [GenerateChildren] *)

(** The constructed [_child] in one piece. *)
Lemma GenerateChildren_child_eq (this : ptr) (raw self : Node) (dpsi dvs dt : R)
    (nodeList : list Node) :
  GenerateChildren_child this raw self dpsi dvs dt nodeList =
  mkNode this (index raw)
    (x self + speed self * sin (dpsi * PI / 180 + psi self * PI / 180) * dt)
    (y self + speed self * cos (dpsi * PI / 180 + psi self * PI / 180) * dt)
    (z self + vs self * dt)
    0 0 0 (psi self + dpsi) (vs self) 2 0 0 5 [].
Proof. reflexivity. Qed.

(** The position and heading of the constructed [_child], with the angle
    written as the specification writes it. *)
Lemma GenerateChildren_child_motion (this : ptr) (raw self : Node) (dpsi dvs dt : R)
    (nodeList : list Node) :
  x (GenerateChildren_child this raw self dpsi dvs dt nodeList) =
    x self + speed self * sin (radians (dpsi + psi self)) * dt /\
  y (GenerateChildren_child this raw self dpsi dvs dt nodeList) =
    y self + speed self * cos (radians (dpsi + psi self)) * dt /\
  z (GenerateChildren_child this raw self dpsi dvs dt nodeList) =
    z self + vs self * dt /\
  psi (GenerateChildren_child this raw self dpsi dvs dt nodeList) = psi self + dpsi.
Proof.
  rewrite GenerateChildren_child_eq.
  assert (Hrad : radians (dpsi + psi self) = dpsi * PI / 180 + psi self * PI / 180)
    by (unfold radians; field).
  rewrite Hrad. simpl. repeat split; reflexivity.
Qed.

(** The constructed [_child] has no children, so [_child.AddChild(_child)]
    takes the path without a [return]. *)
Lemma AddChild_of_child (this : ptr) (raw self : Node) (dpsi dvs dt : R)
    (nodeList : list Node) :
  AddChild (GenerateChildren_child this raw self dpsi dvs dt nodeList)
           (GenerateChildren_child this raw self dpsi dvs dt nodeList) = FellOffEnd.
Proof. rewrite GenerateChildren_child_eq. reflexivity. Qed.

(** No iteration of the inner loop has a result: a read past the end of an
    array or the call of [AddChild] makes it undefined. *)
Lemma GenerateChildren_body_undefined (this : ptr) (raw : Node)
    (heading vspeed : list R) (dt : R) (i j : Z) (st : Node * list Node) :
  GenerateChildren_body this raw heading vspeed dt i j st = None.
Proof.
  destruct st as [self nodeList]. unfold GenerateChildren_body.
  destruct (read heading i) as [dpsi|]; [|reflexivity].
  destruct (read vspeed j) as [dvs|]; [|reflexivity].
  now rewrite AddChild_of_child.
Qed.

(** A call that runs no iteration returns and changes nothing. *)
Lemma GenerateChildren_no_iteration (this : ptr) (uninit : Z -> Z -> Node)
    (self : Node) (lenH lenV : Z) (heading vspeed : list R) (dt : R)
    (nodeList : list Node) :
  (lenH <= 0 \/ lenV <= 0)%Z ->
  GenerateChildren this uninit self lenH lenV heading vspeed dt nodeList =
  Some (self, nodeList).
Proof.
  intros [HH | HV]; unfold GenerateChildren, for_int.
  - replace (Z.to_nat lenH) with 0%nat by lia. reflexivity.
  - replace (Z.to_nat lenV) with 0%nat by lia.
    apply for_loop_skips. reflexivity.
Qed.

(** A call that runs an iteration is undefined. *)
Lemma GenerateChildren_iteration (this : ptr) (uninit : Z -> Z -> Node)
    (self : Node) (lenH lenV : Z) (heading vspeed : list R) (dt : R)
    (nodeList : list Node) :
  (0 < lenH)%Z -> (0 < lenV)%Z ->
  GenerateChildren this uninit self lenH lenV heading vspeed dt nodeList = None.
Proof.
  intros HH HV. unfold GenerateChildren, for_int.
  apply (for_loop_fails _ _ 0%Z 0%Z); [lia|].
  intros st. apply (for_loop_fails _ _ 0%Z 0%Z); [lia|].
  intros st'. apply GenerateChildren_body_undefined.
Qed.

Lemma NodeDist_nonneg (A B : Node) : 0 <= NodeDist A B.
Proof. unfold NodeDist. apply sqrt_pos. Qed.

(** ** Properties of the specification *)

(** C1 (the code departs from it).  The specification gives every successor
    the vertical speed of its pair, [new_vs = vspeed_offset].  The source
    reads [vspeed[j]] into [dvs] and then passes the parent's [vs] to the
    constructor.  Expanding [start] (vertical speed 0) over the heading grid
    [0] and the vertical-speed grid [1], the iteration reads the offset 1 and
    constructs a node whose vertical speed is 0, not 1. *)
Theorem GenerateChildren_vs_not_offset :
  read [1] 0 = Some 1 /\
  vs (GenerateChildren_child start_addr stale start 0 1 1 [start]) = vs start /\
  vs (GenerateChildren_child start_addr stale start 0 1 1 [start]) = 0 /\
  vs (GenerateChildren_child start_addr stale start 0 1 1 [start]) <> 1.
Proof.
  split; [reflexivity|].
  rewrite GenerateChildren_child_eq. unfold start. rewrite Node_ctor_eq.
  simpl. repeat split; lra.
Qed.

(** C2 (the code departs from it).  The specification has every node store a
    unique index, the size of the node list at its creation.  The constructor
    takes that value as its argument [index] and never stores it, so the
    member keeps what the storage held.  [start] was constructed with the
    index argument 0, and the nodes constructed when the list holds 1 and 2
    nodes get the arguments 1 and 2; with storage that holds 7 all three
    carry index 7. *)
Theorem GenerateChildren_index_not_stored :
  index start = 7%Z /\
  to_int (Z.of_nat (length [start])) = 1%Z /\
  index (GenerateChildren_child start_addr stale start 0 0 1 [start]) = 7%Z /\
  to_int (Z.of_nat (length [start; stale])) = 2%Z /\
  index (GenerateChildren_child start_addr stale start 10 0 1 [start; stale]) = 7%Z.
Proof.
  rewrite !GenerateChildren_child_eq. unfold start. rewrite Node_ctor_eq.
  repeat split.
Qed.

(** C3 (the code departs from it).  The specification has [AddChild] return
    true when it appends.  In the source that path ends at the closing brace
    of the function: no value is returned.  Adding [stale] to [start], which
    has no children, is such a call. *)
Theorem AddChild_append_returns_nothing :
  children start = [] /\
  AddChild start stale = FellOffEnd.
Proof.
  unfold start. rewrite Node_ctor_eq. split; reflexivity.
Qed.

(** C4 (the code departs from it).  The specification has an expansion over
    [m] headings and [n] vertical speeds append [m * n] nodes.  In the source
    every iteration calls [_child.AddChild(_child)] on a node without
    children, which ends without a [return]: the call of [GenerateChildren]
    is undefined from its first iteration on and no node can be said to have
    been appended.  Expanding [start] over three headings and one vertical
    speed is such a call. *)
Theorem GenerateChildren_expansion_undefined :
  AddChild (GenerateChildren_child start_addr stale start (-10) 0 1 [start])
           (GenerateChildren_child start_addr stale start (-10) 0 1 [start]) =
    FellOffEnd /\
  GenerateChildren start_addr (fun _ _ => stale) start 3 1 [-10; 0; 10] [0] 1
    [start] = None.
Proof.
  split.
  - apply AddChild_of_child.
  - apply GenerateChildren_iteration; lia.
Qed.

(** The heading of the constructed node is not brought back into [0, 360):
    from the heading 350 the offset 20 gives 370. *)
Example GenerateChildren_heading_not_wrapped :
  psi (GenerateChildren_child start_addr stale (set_psi 350 start) 20 0 1 []) = 370.
Proof. rewrite GenerateChildren_child_eq. simpl. lra. Qed.


(** C6.  [GoalCheck] answers true exactly when the planar distance to the
    goal is below the receiver's [neighborhood]; the altitudes of the two
    nodes play no part, and at a distance equal to [neighborhood] the answer
    is false. *)
Theorem GoalCheck_iff (N G : Node) :
  (GoalCheck N G = true <-> NodeDist N G < neighborhood N) /\
  (forall zN zG : R, GoalCheck (set_z zN N) (set_z zG G) = GoalCheck N G) /\
  (NodeDist N G = neighborhood N -> GoalCheck N G = false).
Proof.
  unfold GoalCheck. split; [|split].
  - destruct (Rlt_dec (NodeDist N G) (neighborhood N)) as [Hlt | Hge].
    + split; [intros _; exact Hlt | reflexivity].
    + split; [discriminate | intro Hlt; contradiction].
  - intros zN zG. reflexivity.
  - intro Heq.
    destruct (Rlt_dec (NodeDist N G) (neighborhood N)) as [Hlt | Hge];
      [lra | reflexivity].
Qed.

(** The boundary on a run: a goal at (3, 4) is at distance 5 from [start],
    whose [neighborhood] is 5, and the goal test fails; any altitude of the
    goal gives the same answer. *)
Example GoalCheck_boundary (zG : R) :
  NodeDist start (set_z zG (set_y 4 (set_x 3 start))) = neighborhood start /\
  GoalCheck start (set_z zG (set_y 4 (set_x 3 start))) = false.
Proof.
  assert (Hd : NodeDist start (set_z zG (set_y 4 (set_x 3 start))) = 5).
  { unfold NodeDist. simpl.
    replace ((0 - 3) * ((0 - 3) * 1) + (0 - 4) * ((0 - 4) * 1)) with (5 * 5) by lra.
    apply sqrt_square. lra. }
  split; [exact Hd|].
  unfold GoalCheck. rewrite Hd. simpl.
  destruct (Rlt_dec 5 5) as [Hlt | _]; [lra | reflexivity].
Qed.

(** C7.  [NodeDist] is the planar Euclidean distance of the two positions: a
    function of the four coordinates [x], [y] alone (so replacing the
    altitudes changes nothing), the square root of a sum that is never
    negative, and the same in both directions. *)
Theorem NodeDist_planar_symmetric (A B : Node) :
  NodeDist A B = planar_distance (x A) (y A) (x B) (y B) /\
  (forall zA zB : R, NodeDist (set_z zA A) (set_z zB B) = NodeDist A B) /\
  0 <= (x A - x B) ^ 2 + (y A - y B) ^ 2 /\
  NodeDist A B * NodeDist A B = (x A - x B) ^ 2 + (y A - y B) ^ 2 /\
  NodeDist A B = NodeDist B A.
Proof.
  assert (Hpos : 0 <= (x A - x B) ^ 2 + (y A - y B) ^ 2).
  { pose proof (pow2_ge_0 (x A - x B)). pose proof (pow2_ge_0 (y A - y B)). lra. }
  repeat split.
  - unfold NodeDist, planar_distance. f_equal. ring.
  - exact Hpos.
  - unfold NodeDist. apply sqrt_sqrt. exact Hpos.
  - unfold NodeDist. f_equal. ring.
Qed.

(** C8.  [operator<] answers true exactly when the receiver's [g + h] is
    below that of the other node; with equal sums it answers false.  No other
    member is read: nodes with the same [g] and [h] compare alike. *)
Theorem Node_lt_iff (A B : Node) :
  (Node_lt A B = true <-> g A + h A < g B + h B) /\
  (g A + h A = g B + h B -> Node_lt A B = false) /\
  (forall A' B' : Node,
     g A' = g A -> h A' = h A -> g B' = g B -> h B' = h B ->
     Node_lt A' B' = Node_lt A B).
Proof.
  unfold Node_lt. cbv zeta. split; [|split].
  - destruct (Rlt_dec (g A + h A) (g B + h B)) as [Hlt | Hge].
    + split; [intros _; exact Hlt | reflexivity].
    + split; [discriminate | intro Hlt; contradiction].
  - intro Heq.
    destruct (Rlt_dec (g A + h A) (g B + h B)) as [Hlt | Hge];
      [lra | reflexivity].
  - intros A' B' -> -> -> ->. reflexivity.
Qed.


(** C10 (the code departs from it).  The claim has every successor end with
    one child, a copy of itself, after the expansion.  The node an iteration
    constructs has no children, and [_child.AddChild(_child)] then takes the
    path of [AddChild] that ends without a [return]: the call is undefined and
    there is no state of the successor after it.  Expanding [start] over one
    heading and one vertical speed is such a call. *)
Theorem GenerateChildren_child_not_linked :
  children (GenerateChildren_child start_addr stale start 0 0 1 [start]) = [] /\
  AddChild (GenerateChildren_child start_addr stale start 0 0 1 [start])
           (GenerateChildren_child start_addr stale start 0 0 1 [start]) =
    FellOffEnd /\
  GenerateChildren start_addr (fun _ _ => stale) start 1 1 [0] [0] 1 [start] = None.
Proof.
  split; [rewrite GenerateChildren_child_eq; reflexivity|].
  split; [apply AddChild_of_child | apply GenerateChildren_iteration; lia].
Qed.

(** ** Further properties of the code *)

(** X1.  When some child of the receiver already has the index of the
    candidate, [AddChild] returns false and the receiver, its children
    included, is as before. *)
Theorem AddChild_duplicate_rejected (self child : Node) :
  (exists c, In c (children self) /\ index c = index child) ->
  AddChild self child = Returned (self, false).
Proof.
  intro Hdup. apply AddChild_found. now apply index_found_true.
Qed.

Lemma AddChild_duplicate_rejected_witness :
  AddChild (set_children [stale] start) (set_x 1 stale) =
  Returned (set_children [stale] start, false).
Proof.
  apply (AddChild_duplicate_rejected (set_children [stale] start) (set_x 1 stale)).
  exists stale. split; [simpl; left; reflexivity | reflexivity].
Defined.

(** [operator!=] answers true exactly when the two indices differ; no
    other member is compared. *)
Theorem Node_neq_iff (A B : Node) :
  Node_neq A B = true <-> index A <> index B.
Proof.
  unfold Node_neq.
  destruct (Z.eqb_spec (index A) (index B)) as [E | E]; simpl.
  - split; [discriminate | intro H; contradiction].
  - split; [intros _; exact E | reflexivity].
Qed.

(** The node an iteration of [GenerateChildren] constructs has the address of
    the expanded node as its [parent] and the vertical speed of the expanded
    node as its [vs]; the vertical-speed offset read and the node list leave
    no trace in it. *)
Lemma GenerateChildren_child_parent_and_vs (this : ptr) (raw self : Node)
    (dpsi dvs dvs' dt : R) (nodeList nodeList' : list Node) :
  parent (GenerateChildren_child this raw self dpsi dvs dt nodeList) = this /\
  vs (GenerateChildren_child this raw self dpsi dvs dt nodeList) = vs self /\
  GenerateChildren_child this raw self dpsi dvs dt nodeList =
    GenerateChildren_child this raw self dpsi dvs' dt nodeList'.
Proof. rewrite !GenerateChildren_child_eq. repeat split. Qed.

(** The node the constructor builds does not depend on its argument
    [index]: the member [index] is the one of the storage. *)
Theorem Node_ctor_ignores_index (raw : Node) (p : ptr) (i i' : Z)
    (xl yl zl psil vsl speedl : R) :
  Node_ctor raw p i xl yl zl psil vsl speedl =
    Node_ctor raw p i' xl yl zl psil vsl speedl /\
  index (Node_ctor raw p i xl yl zl psil vsl speedl) = index raw.
Proof. split; reflexivity. Qed.

(** X5.  With a length that is zero or negative on either grid, a call
    appends nothing and reads neither array. *)
Theorem GenerateChildren_empty_grid (this : ptr) (uninit : Z -> Z -> Node)
    (self : Node) (lenH lenV : Z) (heading vspeed : list R) (dt : R)
    (nodeList : list Node) :
  (lenH <= 0 \/ lenV <= 0)%Z ->
  GenerateChildren this uninit self lenH lenV heading vspeed dt nodeList =
  Some (self, nodeList).
Proof.
  intros [HH | HV]; unfold GenerateChildren, for_int.
  - replace (Z.to_nat lenH) with 0%nat by lia. reflexivity.
  - replace (Z.to_nat lenV) with 0%nat by lia.
    apply for_loop_skips. reflexivity.
Qed.

Lemma GenerateChildren_empty_grid_witness :
  GenerateChildren start_addr (fun _ _ => stale) start 3 0 [] [] 1 [start] =
  Some (start, [start]).
Proof.
  apply (GenerateChildren_empty_grid start_addr (fun _ _ => stale) start
           3 0 [] [] 1 [start]).
  right. lia.
Defined.

(** ** The comparisons as relations *)

(** X6.  [operator<] is a strict weak order on nodes: no node is below
    itself, two nodes are never below each other, being below is transitive,
    and so is being unordered (neither below the other).  This is what a
    sort or a priority queue asks of its comparison. *)
Theorem Node_lt_strict_weak_order :
  (forall A : Node, Node_lt A A = false) /\
  (forall A B : Node, Node_lt A B = true -> Node_lt B A = false) /\
  (forall A B C : Node,
     Node_lt A B = true -> Node_lt B C = true -> Node_lt A C = true) /\
  (forall A B C : Node,
     Node_lt A B = false -> Node_lt B A = false ->
     Node_lt B C = false -> Node_lt C B = false ->
     Node_lt A C = false /\ Node_lt C A = false).
Proof.
  unfold Node_lt. cbv zeta. split; [|split; [|split]].
  - intro A. destruct (Rlt_dec (g A + h A) (g A + h A)); [lra | reflexivity].
  - intros A B.
    destruct (Rlt_dec (g A + h A) (g B + h B)), (Rlt_dec (g B + h B) (g A + h A));
      intros; (reflexivity || discriminate || lra).
  - intros A B C.
    destruct (Rlt_dec (g A + h A) (g B + h B)), (Rlt_dec (g B + h B) (g C + h C)),
             (Rlt_dec (g A + h A) (g C + h C));
      intros; (reflexivity || discriminate || lra).
  - intros A B C.
    destruct (Rlt_dec (g A + h A) (g B + h B)), (Rlt_dec (g B + h B) (g A + h A)),
             (Rlt_dec (g B + h B) (g C + h C)), (Rlt_dec (g C + h C) (g B + h B)),
             (Rlt_dec (g A + h A) (g C + h C)), (Rlt_dec (g C + h C) (g A + h A));
      intros; try discriminate; split; (reflexivity || lra).
Qed.

Lemma Node_lt_strict_weak_order_witness :
  Node_lt (set_g 1 start) (set_g 3 start) = true.
Proof.
  apply (proj1 (proj2 (proj2 Node_lt_strict_weak_order))
           (set_g 1 start) (set_g 2 start) (set_g 3 start));
    unfold Node_lt; simpl;
    match goal with |- context [Rlt_dec ?a ?b] => destruct (Rlt_dec a b) end;
    (reflexivity || lra).
Defined.

(** X7.  "Not [operator!=]" is an equivalence of nodes: [A != A] is false,
    [A != B] and [B != A] agree, and when neither [A != B] nor [B != C] then
    not [A != C].  Nodes that differ only in members other than [index] are
    not told apart. *)
Theorem Node_neq_equivalence :
  (forall A : Node, Node_neq A A = false) /\
  (forall A B : Node, Node_neq A B = Node_neq B A) /\
  (forall A B C : Node,
     Node_neq A B = false -> Node_neq B C = false -> Node_neq A C = false) /\
  (forall (A : Node) (i : Z), Node_neq A (set_index i A) = negb (index A =? i)%Z).
Proof.
  unfold Node_neq. repeat split.
  - intro A. now rewrite Z.eqb_refl.
  - intros A B. now rewrite Z.eqb_sym.
  - intros A B C.
    destruct (Z.eqb_spec (index A) (index B)), (Z.eqb_spec (index B) (index C)),
             (Z.eqb_spec (index A) (index C));
      simpl; intros; (reflexivity || discriminate || congruence).
  - intros A i. simpl. now destruct (index A =? i)%Z.
Qed.

Lemma Node_neq_equivalence_witness :
  Node_neq stale (set_y 2 start) = false.
Proof.
  apply (proj1 (proj2 (proj2 Node_neq_equivalence))
           stale (set_x 1 stale) (set_y 2 start)); reflexivity.
Defined.

(** X8.  When [AddChild] is undefined.  A call ends without a [return]
    exactly when [operator!=] tells the candidate from every child of the
    receiver, in particular on a receiver without children; every other call
    returns false with the receiver as it was.  No call returns true. *)
Theorem AddChild_undefined_iff (self child : Node) :
  (AddChild self child = FellOffEnd <->
   forall c : Node, In c (children self) -> Node_neq c child = true) /\
  (AddChild self child = FellOffEnd \/ AddChild self child = Returned (self, false)).
Proof.
  unfold AddChild.
  destruct (index_found (children self) child) eqn:Hf; cbv zeta.
  - split; [|right; reflexivity].
    split; [discriminate|]. intro Hall.
    apply index_found_true in Hf as (c & Hin & Hc).
    specialize (Hall c Hin). unfold Node_neq in Hall.
    rewrite Hc, Z.eqb_refl in Hall. discriminate.
  - split; [|left; reflexivity].
    split; [|reflexivity]. intros _ c Hin.
    unfold Node_neq.
    destruct (Z.eqb_spec (index c) (index child)) as [E | E]; [|reflexivity].
    assert (Ht : index_found (children self) child = true)
      by (apply index_found_true; exists c; auto).
    congruence.
Qed.

(** ** Distance and goal test *)

(** X11.  The goal test at the edges of its radius.  With a [neighborhood]
    that is zero or negative no goal is accepted, not even one at the node's
    own position; with a positive one every goal at the node's horizontal
    position is accepted, at any altitude.  The radius is the receiver's:
    when the two nodes have the same [neighborhood] the test gives the same
    answer in both directions. *)
Theorem GoalCheck_radius :
  (forall N G : Node, neighborhood N <= 0 -> GoalCheck N G = false) /\
  (forall N G : Node,
     0 < neighborhood N -> x G = x N -> y G = y N -> GoalCheck N G = true) /\
  (forall N G : Node,
     neighborhood N = neighborhood G -> GoalCheck N G = GoalCheck G N).
Proof.
  unfold GoalCheck. split; [|split].
  - intros N G Hr. pose proof (NodeDist_nonneg N G).
    destruct (Rlt_dec (NodeDist N G) (neighborhood N)); [lra | reflexivity].
  - intros N G Hr Hx Hy.
    assert (Hd : NodeDist N G = 0).
    { unfold NodeDist. rewrite Hx, Hy.
      replace ((x N - x N) ^ 2 + (y N - y N) ^ 2) with 0 by ring. apply sqrt_0. }
    rewrite Hd. destruct (Rlt_dec 0 (neighborhood N)); [reflexivity | contradiction].
  - intros N G Hr.
    assert (Hd : NodeDist N G = NodeDist G N)
      by (unfold NodeDist; f_equal; ring).
    now rewrite Hd, Hr.
Qed.

Lemma GoalCheck_radius_witness :
  GoalCheck (set_neighborhood 0 start) (set_neighborhood 0 start) = false /\
  GoalCheck start (set_z 100 start) = true.
Proof.
  split.
  - apply (proj1 GoalCheck_radius). simpl. lra.
  - apply (proj1 (proj2 GoalCheck_radius)); simpl; (reflexivity || lra).
Defined.

(** ** More on [GenerateChildren] *)

(** X12.  When a call is undefined.  [GenerateChildren] has no result
    exactly when both lengths are positive, that is when it runs an iteration
    at all: the first iteration reads past the end of an array or calls
    [AddChild] on a node without children, which ends without a [return]. *)
Theorem GenerateChildren_undefined_iff (this : ptr) (uninit : Z -> Z -> Node)
    (self : Node) (lenH lenV : Z) (heading vspeed : list R) (dt : R)
    (nodeList : list Node) :
  GenerateChildren this uninit self lenH lenV heading vspeed dt nodeList = None <->
  (0 < lenH /\ 0 < lenV)%Z.
Proof.
  split.
  - intro Hnone.
    destruct (Z.le_gt_cases lenH 0) as [HH | HH].
    { rewrite GenerateChildren_no_iteration in Hnone by (now left). discriminate. }
    destruct (Z.le_gt_cases lenV 0) as [HV | HV].
    { rewrite GenerateChildren_no_iteration in Hnone by (now right). discriminate. }
    lia.
  - intros [HH HV]. now apply GenerateChildren_iteration.
Qed.



(** ** Fresh nodes *)

(** X20.  A node fresh from either constructor has no children, so the first
    [AddChild] on it, whatever the candidate and whatever the storage held,
    takes the path that ends without a [return]: the call is undefined. *)
Theorem AddChild_on_fresh_node (raw : Node) (p : ptr) (i : Z)
    (xl yl zl psil vsl speedl : R) (child : Node) :
  children (Node_ctor raw p i xl yl zl psil vsl speedl) = [] /\
  AddChild (Node_ctor raw p i xl yl zl psil vsl speedl) child = FellOffEnd /\
  children (Node_default raw) = [] /\
  AddChild (Node_default raw) child = FellOffEnd.
Proof.
  rewrite !Node_ctor_eq. unfold Node_default. repeat split.
Qed.
